(** * express-cache-tutorial: a TTL cache guard in front of one upstream call

    Shallow embedding of the JavaScript sources of the tutorial:

    - [services/fetch.js]            ([FetchApi])
    - [services/crypto.services.js]  ([cryptoApi])
    - [middleware/crypto.cache.js]   ([cryptoCache], [cryptoCacheMiddleware])
    - [controllers/crypto.controllers.js] ([cryptoController])
    - [router.js]                    (the [GET /crypto] route)

    The handlers are effectful: they read and write the process-wide cache,
    write to the response object, log to the console and call the upstream
    API.  They are embedded in a small state-and-exception monad over a
    [World]; every observable action is appended to an event trace. *)

From Stdlib Require Import ZArith List Lia.
From stdpp Require Import gmap strings list fin_maps.

Local Open Scope Z_scope.

(** ** JavaScript built-ins used by the sources *)

Module Js.

(** The [amount] argument of [cryptoApi]: the handler passes a number, and
    a call without argument passes [undefined].  Numbers are modelled as
    integers; fractional counts are outside the model. *)
Inductive Amount : Type :=
| Undefined
| Num (n : Z).

(** [Array.prototype.slice(start, end)] on an array [l], following the
    ECMAScript algorithm: a negative bound counts from the end of the
    array, a bound past the end is clamped, an [undefined] end bound
    stands for the length. *)
Definition slice {A : Type} (start : Z) (end_ : Amount) (l : list A) : list A :=
  let len := Z.of_nat (length l) in
  let k := if start <? 0 then Z.max (len + start) 0 else Z.min start len in
  let relativeEnd := match end_ with Undefined => len | Num e => e end in
  let final :=
    if relativeEnd <? 0 then Z.max (len + relativeEnd) 0
    else Z.min relativeEnd len in
  let count := Z.max (final - k) 0 in
  take (Z.to_nat count) (drop (Z.to_nat k) l).

End Js.

(** ** Data model *)

(** A ticker record as returned by the upstream API.  The schema belongs to
    the exchange; the program never looks inside a record. *)
Record Ticker : Type := mkTicker {
  symbol : string;
  lastPrice : string;
  volume : string
}.

(** A JavaScript value that is either an array of tickers or [undefined]. *)
Abbreviation Value := (option (list Ticker)).

(** Errors that travel through [throw]/[catch]. *)
Inductive Error : Type :=
| FetchError (msg : string)
| ErrHttpHeadersSent.

(** ** The cache guard ([node-cache]) *)

Module Cache.

(** Modelled from the spec: the [node-cache] package ([has], [get], [set]
    and the [stdTTL] option) is a dependency whose source is not part of
    the repository.  Section 4.2 of the specification gives its contract:
    an entry holds the stored sequence and an expiry stamped at [set]
    time as [now + TTL]; expiry is checked lazily at read time and nothing
    is evicted in the background.  The clock counts milliseconds, as
    JavaScript's [Date.now()] does; the [stdTTL] option is in seconds. *)
Record Entry : Type := mkEntry {
  v : list Ticker;   (* the stored value *)
  t : Z              (* the expiry: time of the [set] plus the TTL *)
}.

(** Modelled from the spec: the cache object, [new Cache({ stdTTL })]. *)
Record Cache : Type := mkCache {
  stdTTL : Z;
  data : gmap string Entry
}.

(** Modelled from the spec: the TTL of the cache in clock units. *)
Definition ttl_ms (c : Cache) : Z := stdTTL c * 1000.

(** Modelled from the spec: a freshly constructed, empty cache. *)
Definition new (ttl : Z) : Cache := {| stdTTL := ttl; data := ∅ |}.

(** Modelled from the spec: an entry read at time [now] is live when it
    has not exceeded its TTL, that is when [now] is not past its expiry. *)
Definition live (now : Z) (e : Entry) : bool := now <=? t e.

(** Modelled from the spec: [has(key)] is true iff an entry exists for
    [key] and has not exceeded its TTL. *)
Definition has (key : string) (now : Z) (c : Cache) : bool :=
  match data c !! key with
  | Some e => live now e
  | None => false
  end.

(** Modelled from the spec: [get(key)] returns the cached sequence if
    present and unexpired, and [undefined] otherwise. *)
Definition get (key : string) (now : Z) (c : Cache) : Value :=
  match data c !! key with
  | Some e => if live now e then Some (v e) else None
  | None => None
  end.

(** Modelled from the spec: [set(key, value)] stores [value] under [key]
    with a freshly stamped expiry [now + TTL], overwriting any prior
    entry. *)
Definition set (key : string) (value : list Ticker) (now : Z) (c : Cache) : Cache :=
  {| stdTTL := stdTTL c;
     data := <[key := {| v := value; t := now + ttl_ms c |}]> (data c) |}.

End Cache.

(** ** The world the handlers run in *)

(** Everything a handler can be observed to do, in the order it happens. *)
Inductive Event : Type :=
| EvHas (key : string) (r : bool)            (* cryptoCache.has(key) returned r *)
| EvGet (key : string) (r : Value)           (* cryptoCache.get(key) returned r *)
| EvSet (key : string) (value : list Ticker) (* cryptoCache.set(key, value) *)
| EvFetch (url : string)                     (* axios.get(url) *)
| EvLog (e : Error)                          (* console.log(err) *)
| EvSend (status : Z) (body : Value)         (* res.send(body), on the wire *)
| EvNext                                     (* next() *)
| EvUnhandledRejection (e : Error).          (* an async handler rejected *)

(** The Express response object [res]: the status code that the next
    [send] will use (200 until [status] changes it) and what has been sent
    to the client, if anything. *)
Record Res : Type := mkRes {
  statusCode : Z;
  sent : option (Z * Value)
}.

Definition fresh_res : Res := {| statusCode := 200; sent := None |}.

(** The process-wide cache of [crypto.cache.js], the response object of the
    request being served, and the events so far. *)
Record World : Type := mkWorld {
  cache : Cache.Cache;
  res : Res;
  trace : list Event
}.

(** What the upstream API does when it is called. *)
Inductive Upstream : Type :=
| Responds (body : list Ticker)
| Fails (e : Error).

(** The environment of one [GET /crypto] request: the clock value read by
    each cache operation the request may perform, and the behaviour of the
    upstream API should it be called.  [has] and [get] are two calls and
    each reads the clock; [set] runs once the fetch has been awaited. *)
Record Request : Type := mkRequest {
  t_has : Z;
  t_get : Z;
  t_set : Z;
  upstream : Upstream
}.

(** ** A state-and-exception monad *)

Inductive Outcome (A : Type) : Type :=
| Return (a : A)
| Throw (e : Error).
Arguments Return {A} a.
Arguments Throw {A} e.

Definition M (A : Type) : Type := World -> Outcome A * World.

Definition ret {A : Type} (a : A) : M A := fun w => (Return a, w).

Definition bind {A B : Type} (m : M A) (k : A -> M B) : M B :=
  fun w =>
    match m w with
    | (Return a, w') => k a w'
    | (Throw e, w') => (Throw e, w')
    end.

Definition throw {A : Type} (e : Error) : M A := fun w => (Throw e, w).

(** [try { m } catch (err) { h err }]: what [m] did to the world before it
    threw stays done. *)
Definition try_catch {A : Type} (m : M A) (h : Error -> M A) : M A :=
  fun w =>
    match m w with
    | (Return a, w') => (Return a, w')
    | (Throw e, w') => h e w'
    end.

Declare Scope js_scope.
Delimit Scope js_scope with js.
Notation "'let*' x ':=' m 'in' k" := (bind m (fun x => k))
  (at level 10, x name, m at level 100, k at level 200) : js_scope.
Notation "m '>>' k" := (bind m (fun _ => k))
  (at level 61, left associativity) : js_scope.
Local Open Scope js_scope.

(** ** Primitive actions *)

Definition emit (ev : Event) : M unit :=
  fun w => (Return tt, {| cache := cache w; res := res w; trace := trace w ++ [ev] |}).

Definition console_log (err : Error) : M unit := emit (EvLog err).

Definition cache_has (key : string) (now : Z) : M bool :=
  fun w => let r := Cache.has key now (cache w) in
           (Return r, {| cache := cache w; res := res w;
                         trace := trace w ++ [EvHas key r] |}).

Definition cache_get (key : string) (now : Z) : M Value :=
  fun w => let r := Cache.get key now (cache w) in
           (Return r, {| cache := cache w; res := res w;
                         trace := trace w ++ [EvGet key r] |}).

Definition cache_set (key : string) (value : list Ticker) (now : Z) : M unit :=
  fun w => (Return tt, {| cache := Cache.set key value now (cache w); res := res w;
                          trace := trace w ++ [EvSet key value] |}).

(** [res.status(code)] only records the code on the response object. *)
Definition res_status (code : Z) : M unit :=
  fun w => (Return tt, {| cache := cache w;
                          res := {| statusCode := code; sent := sent (res w) |};
                          trace := trace w |}).

(** [res.send(body)] writes the response with the current status code; a
    second [send] on the same response throws.  Requests carry no headers
    here, so the shortcut Express takes for a conditional request whose
    validators still match (status 304, empty body) is outside the model:
    [sent] and [EvSend] record what the handler hands to [send]. *)
Definition res_send (body : Value) : M unit :=
  fun w =>
    match sent (res w) with
    | Some _ => (Throw ErrHttpHeadersSent, w)
    | None =>
        (Return tt,
         {| cache := cache w;
            res := {| statusCode := statusCode (res w);
                      sent := Some (statusCode (res w), body) |};
            trace := trace w ++ [EvSend (statusCode (res w)) body] |})
    end.

(** [axios.get(url)] followed by [.data]: one call to the upstream API. *)
Definition axios_get (rq : Request) (url : string) : M (list Ticker) :=
  emit (EvFetch url) >>
  match upstream rq with
  | Responds body => ret body
  | Fails e => throw e
  end.

(** Calling an [async] function that nobody awaits: the call itself never
    throws; a rejection surfaces as an unhandled rejection.  This is how
    Express 4 (the [package.json] asks for [^4.18.1]) calls a handler. *)
Definition async (m : M unit) : M unit :=
  try_catch m (fun err => emit (EvUnhandledRejection err)).

(** ** The sources *)

Definition ticker_url : string := "https://api2.binance.com/api/v3/ticker/24hr".
Definition crypto_list : string := "crypto-list".

(** [services/fetch.js] *)
Definition FetchApi (rq : Request) (url : string) : M (list Ticker) :=
  try_catch
    (axios_get rq url)
    (fun err => console_log err >> throw err).

(** [services/crypto.services.js] *)
Definition cryptoApi (rq : Request) (amount : Js.Amount) : M (list Ticker) :=
  try_catch
    (let* result := FetchApi rq ticker_url in
     ret (Js.slice 0 amount result))
    (fun err => console_log err >> throw err).

(** [middleware/crypto.cache.js] *)
Definition cryptoCache : Cache.Cache := Cache.new (60 * 5).

Definition cryptoCacheMiddleware (rq : Request) (next : M unit) : M unit :=
  try_catch
    (let* hit := cache_has crypto_list (t_has rq) in
     if hit : bool then
       let* cached := cache_get crypto_list (t_get rq) in
       res_send cached >> res_status 200
     else next)
    (fun err => console_log err >> throw err).

(** [controllers/crypto.controllers.js] *)
Definition cryptoController (rq : Request) : M unit :=
  try_catch
    (let* data := cryptoApi rq (Js.Num 25) in
     cache_set crypto_list data (t_set rq) >>
     res_send (Some data) >>
     res_status 200)
    (fun err => res_status 500 >> console_log err >> throw err).

(** [router.js]: [router.get("/crypto", cryptoCacheMiddleware, cryptoController)].
    [next()] hands the request to the controller, whose promise Express
    does not await. *)
Definition next (rq : Request) : M unit :=
  emit EvNext >> async (cryptoController rq).

Definition router (rq : Request) : M unit :=
  cryptoCacheMiddleware rq (next rq).

(** One [GET /crypto] request against the cache [c]: Express hands the
    handlers a fresh response object. *)
Definition GET_crypto (rq : Request) (c : Cache.Cache) : Outcome unit * World :=
  router rq {| cache := c; res := fresh_res; trace := [] |}.

(** The program serving requests one after the other: the cache is carried
    from one request to the next and the events accumulate.  Here the
    process is kept alive after an unhandled rejection.  With Node's
    default handling the process stops at the first one, so that a run of
    the program as shipped is [serve] on the requests up to and including
    the first rejected one; what holds of every [serve] run holds of those
    runs too. *)
Fixpoint serve (rqs : list Request) (c : Cache.Cache) : Cache.Cache * list Event :=
  match rqs with
  | [] => (c, [])
  | rq :: rqs' =>
      let w := snd (GET_crypto rq c) in
      let (c', evs) := serve rqs' (cache w) in
      (c', trace w ++ evs)
  end.

(** The world after the events [evs] were appended to the trace. *)
Definition logged (evs : list Event) (w : World) : World :=
  {| cache := cache w; res := res w; trace := trace w ++ evs |}.

(** Counting events of one kind in a trace. *)
Definition is_fetch (ev : Event) : bool :=
  match ev with EvFetch _ => true | _ => false end.
Definition is_next (ev : Event) : bool :=
  match ev with EvNext => true | _ => false end.
Definition is_send (ev : Event) : bool :=
  match ev with EvSend _ _ => true | _ => false end.
Definition is_set (ev : Event) : bool :=
  match ev with EvSet _ _ => true | _ => false end.

Definition count (p : Event -> bool) (tr : list Event) : nat :=
  length (List.filter p tr).

(** The caller discipline on [get]: in the trace, every [get] comes
    directly after a [has] for the same key that returned [true]. *)
Definition guards (prev : option Event) (ev : Event) : bool :=
  match ev with
  | EvGet key _ =>
      match prev with
      | Some (EvHas key' true) => bool_decide (key' = key)
      | _ => false
      end
  | _ => true
  end.

Fixpoint guarded_after (prev : option Event) (tr : list Event) : bool :=
  match tr with
  | [] => true
  | ev :: tr' => guards prev ev && guarded_after (Some ev) tr'
  end.

Definition guarded (tr : list Event) : bool := guarded_after None tr.

(** No [get] in the trace took its absent-read branch. *)
Definition get_always_defined (tr : list Event) : Prop :=
  forall key, ~ In (EvGet key None) tr.

(** The request reads the same clock value in [has] and in [get]. *)
Definition same_instant (rq : Request) : Prop := t_get rq = t_has rq.

(** ** Histories of [set] calls

    The cache never deletes anything, so the state a program can reach is
    the result of replaying the [set] calls made so far. *)

Record SetCall : Type := mkSetCall {
  set_key : string;
  set_value : list Ticker;
  set_at : Z              (* the clock value at the call *)
}.

Definition replay (h : list SetCall) (c : Cache.Cache) : Cache.Cache :=
  foldl (fun c op => Cache.set (set_key op) (set_value op) (set_at op) c) c h.

(** When [key] was stored last, if ever. *)
Definition last_stored (key : string) (h : list SetCall) : option Z :=
  foldl (fun acc op => if decide (set_key op = key) then Some (set_at op) else acc)
        None h.

(** Sample data for the closed examples. *)
Definition tk (n : string) : Ticker := mkTicker n "1.0" "10".
Definition three : list Ticker := [tk "ETHBTC"; tk "LTCBTC"; tk "BNBBTC"].
Definition empty_world : World := {| cache := cryptoCache; res := fresh_res; trace := [] |}.

(** A first request that fills the cache at time 1, and a second one whose
    [has] reads the clock at the very expiry of the entry and whose [get]
    reads it one millisecond later. *)
Definition race_requests : list Request :=
  [ mkRequest 0 0 1 (Responds three);
    mkRequest 300001 300002 300003 (Responds three) ].

(** A request that finds the cache empty while the upstream API is down. *)
Definition failing_request : Request :=
  mkRequest 0 0 1 (Fails (FetchError "ECONNREFUSED")).

(** ** Vocabulary for whole runs *)

Definition is_log (ev : Event) : bool :=
  match ev with EvLog _ => true | _ => false end.
Definition is_rejection (ev : Event) : bool :=
  match ev with EvUnhandledRejection _ => true | _ => false end.

(** The events of a request that is answered from the cache with [body]. *)
Definition hit_events (body : list Ticker) : list Event :=
  [EvHas crypto_list true; EvGet crypto_list (Some body); EvSend 200 (Some body)].

(** The events of a request that misses the cache and whose fetch fails
    with [e]. *)
Definition failure_events (e : Error) : list Event :=
  [EvHas crypto_list false; EvNext; EvFetch ticker_url;
   EvLog e; EvLog e; EvLog e; EvUnhandledRejection e].

(** Both cache reads of the request happen no later than [deadline]. *)
Definition reads_by (deadline : Z) (rq : Request) : Prop :=
  t_has rq <= deadline /\ t_get rq <= deadline.

(** The event is not a response handed to [send] with status [code]. *)
Definition not_sent_with_status (code : Z) (ev : Event) : Prop :=
  match ev with
  | EvSend status _ => status <> code
  | _ => True
  end.

(** Every non-empty body in the trace satisfies [P]. *)
Definition sent_body (P : list Ticker -> Prop) (ev : Event) : Prop :=
  match ev with
  | EvSend _ (Some body) => P body
  | _ => True
  end.

(** [body] is what some request of [rqs] got from the upstream API, cut to
    its first 25 records. *)
Definition fetched_by (rqs : list Request) (body : list Ticker) : Prop :=
  exists rq l, In rq rqs /\ upstream rq = Responds l /\ body = take 25 l.

(** The upstream API answers the request, should it be asked. *)
Definition upstream_up (rq : Request) : Prop :=
  exists l, upstream rq = Responds l.

(** * Properties *)

(** ** [slice] *)

Lemma slice_from_0 {A : Type} (n : Z) (l : list A) :
  0 <= n -> Js.slice 0 (Js.Num n) l = take (Z.to_nat n) l.
Proof.
  intros Hn. unfold Js.slice.
  replace (0 <? 0) with false by reflexivity.
  destruct (Z.ltb_spec n 0) as [?|_]; [lia|].
  rewrite (Z.min_l 0) by lia. rewrite Z.sub_0_r.
  change (Z.to_nat 0) with 0%nat. rewrite drop_0.
  destruct (Z.le_ge_cases n (Z.of_nat (length l))) as [Hle|Hge].
  - rewrite (Z.min_l n), Z.max_l by lia. reflexivity.
  - rewrite (Z.min_r n), Z.max_l by lia. rewrite Nat2Z.id.
    rewrite !take_ge; [reflexivity | lia | lia].
Qed.

Lemma slice_undefined {A : Type} (l : list A) :
  Js.slice 0 Js.Undefined l = l.
Proof.
  unfold Js.slice. replace (0 <? 0) with false by reflexivity.
  destruct (Z.ltb_spec (Z.of_nat (length l)) 0) as [?|_]; [lia|].
  rewrite (Z.min_l 0), Z.min_r, Z.sub_0_r, Z.max_l by lia.
  rewrite Nat2Z.id. change (Z.to_nat 0) with 0%nat. rewrite drop_0.
  apply take_ge. lia.
Qed.

(** ** Stepping through the services *)

Lemma FetchApi_responds rq url w body :
  upstream rq = Responds body ->
  FetchApi rq url w = (Return body, logged [EvFetch url] w).
Proof.
  intros Hup. unfold FetchApi, try_catch, axios_get, bind, emit. simpl.
  rewrite Hup. reflexivity.
Qed.

Lemma FetchApi_fails rq url w e :
  upstream rq = Fails e ->
  FetchApi rq url w = (Throw e, logged [EvFetch url; EvLog e] w).
Proof.
  intros Hup. unfold FetchApi, try_catch, axios_get, bind, emit. simpl.
  rewrite Hup. unfold console_log, throw, emit, logged. simpl.
  rewrite <- app_assoc. reflexivity.
Qed.

Lemma cryptoApi_responds rq amount w body :
  upstream rq = Responds body ->
  cryptoApi rq amount w
  = (Return (Js.slice 0 amount body), logged [EvFetch ticker_url] w).
Proof.
  intros Hup. unfold cryptoApi, try_catch, bind.
  rewrite (FetchApi_responds _ _ _ _ Hup). reflexivity.
Qed.

Lemma cryptoApi_fails rq amount w e :
  upstream rq = Fails e ->
  cryptoApi rq amount w
  = (Throw e, logged [EvFetch ticker_url; EvLog e; EvLog e] w).
Proof.
  intros Hup. unfold cryptoApi, try_catch, bind.
  rewrite (FetchApi_fails _ _ _ _ Hup).
  unfold console_log, throw, emit, logged. simpl.
  rewrite <- app_assoc. reflexivity.
Qed.

(** C1: for every upstream result list and every truncation count [N >= 0],
    [cryptoApi] returns the order-preserving prefix of the upstream list:
    at most [N] records, and exactly [N] records when the upstream list has
    at least [N] records. *)
Theorem cryptoApi_returns_prefix (rq : Request) (w : World) (l : list Ticker) (N : Z) :
  upstream rq = Responds l ->
  0 <= N ->
  exists r : list Ticker,
    fst (cryptoApi rq (Js.Num N) w) = Return r
    /\ r = take (Z.to_nat N) l
    /\ r `prefix_of` l
    /\ Z.of_nat (length r) <= N
    /\ (N <= Z.of_nat (length l) -> Z.of_nat (length r) = N).
Proof.
  intros Hup HN. exists (take (Z.to_nat N) l).
  rewrite (cryptoApi_responds _ _ _ _ Hup), slice_from_0 by assumption.
  split; [reflexivity|]. split; [reflexivity|].
  split; [apply prefix_take|].
  rewrite length_take. split; lia.
Qed.

Lemma cryptoApi_returns_prefix_witness :
  exists r : list Ticker,
    fst (cryptoApi (mkRequest 0 0 1 (Responds three)) (Js.Num 2) empty_world) = Return r
    /\ r = take (Z.to_nat 2) three
    /\ r `prefix_of` three
    /\ Z.of_nat (length r) <= 2
    /\ (2 <= Z.of_nat (length three) -> Z.of_nat (length r) = 2).
Proof.
  apply (cryptoApi_returns_prefix (mkRequest 0 0 1 (Responds three)) empty_world three 2).
  - reflexivity.
  - lia.
Defined.

(** C10: for every upstream result list, [cryptoApi] called with an
    [undefined] amount returns the entire list untruncated; it neither
    fails nor returns an empty list. *)
Theorem cryptoApi_undefined_amount (th tg ts : Z) (w : World) (l : list Ticker) :
  fst (cryptoApi (mkRequest th tg ts (Responds l)) Js.Undefined w) = Return l.
Proof.
  rewrite (cryptoApi_responds _ _ _ l) by reflexivity.
  simpl. rewrite slice_undefined. reflexivity.
Qed.

(** ** The cache guard *)

Lemma has_true_iff key now c :
  Cache.has key now c = true <->
  exists e, Cache.data c !! key = Some e /\ now <= Cache.t e.
Proof.
  unfold Cache.has, Cache.live. destruct (Cache.data c !! key) as [e|].
  - rewrite Z.leb_le. split.
    + intros H. exists e. split; [reflexivity | assumption].
    + intros (e' & [= <-] & H). assumption.
  - split; [discriminate | intros (e' & [=] & _)].
Qed.

Lemma has_false_iff key now c :
  Cache.has key now c = false <->
  forall e, Cache.data c !! key = Some e -> Cache.t e < now.
Proof.
  unfold Cache.has, Cache.live. destruct (Cache.data c !! key) as [e|].
  - rewrite Z.leb_gt. split.
    + intros H e' [= <-]. assumption.
    + intros H. apply H. reflexivity.
  - split; [intros _ e' [=] | reflexivity].
Qed.

(** A miss stays a miss as time goes by. *)
Lemma has_false_later key now now' c :
  Cache.has key now c = false -> now <= now' -> Cache.has key now' c = false.
Proof.
  rewrite !has_false_iff. intros H Hle e He. specialize (H e He). lia.
Qed.

Lemma get_after_has key now c :
  Cache.has key now c = true -> exists l, Cache.get key now c = Some l.
Proof.
  unfold Cache.has, Cache.get. destruct (Cache.data c !! key) as [e|]; [|discriminate].
  intros ->. eauto.
Qed.

Lemma has_set key key' value now now' c :
  Cache.has key' now' (Cache.set key value now c)
  = if decide (key = key') then now' <=? now + Cache.ttl_ms c
    else Cache.has key' now' c.
Proof.
  unfold Cache.has, Cache.set. simpl. rewrite lookup_insert.
  destruct (decide (key = key')); reflexivity.
Qed.

Lemma ttl_ms_replay h c : Cache.ttl_ms (replay h c) = Cache.ttl_ms c.
Proof.
  induction h as [|op h IH] using rev_ind; [reflexivity|].
  unfold replay in *. rewrite foldl_snoc. exact IH.
Qed.

(** C4: for every key and every point in time, [has(key)] returns true if
    and only if an entry exists for that key (it has been stored) and the
    time elapsed since it was stored has not exceeded its TTL ([ttl]
    seconds, on a clock that counts milliseconds). *)
Theorem has_iff_stored_within_ttl (ttl : Z) (h : list SetCall) (key : string) (now : Z) :
  Cache.has key now (replay h (Cache.new ttl)) = true <->
  exists stored : Z, last_stored key h = Some stored /\ now - stored <= ttl * 1000.
Proof.
  induction h as [|op h IH] using rev_ind.
  - simpl. unfold Cache.has. simpl. rewrite lookup_empty.
    split; [discriminate | intros (s & [=] & _)].
  - unfold replay, last_stored in *. rewrite !foldl_snoc.
    rewrite has_set. fold (replay h (Cache.new ttl)).
    rewrite ttl_ms_replay. unfold Cache.ttl_ms. simpl.
    destruct (decide (set_key op = key)) as [_|_]; [|exact IH].
    rewrite Z.leb_le. split.
    + intros H. exists (set_at op). split; [reflexivity | lia].
    + intros (s & [= <-] & H). lia.
Qed.

(** C5: for every value and every prior cache state of the five-minute
    cache, [set(key, value)] stores the value under the key with a freshly
    stamped expiry of [now] plus 300 seconds, overwriting any existing entry
    unconditionally: the other keys keep their entries, an existing key
    does not gain a second entry, and the stored entries have pairwise
    distinct keys. *)
Theorem set_stamps_and_overwrites (c : Cache.Cache) (key : string)
    (value : list Ticker) (now : Z) :
  Cache.stdTTL c = Cache.stdTTL cryptoCache ->
  let c' := Cache.set key value now c in
  Cache.data c' !! key = Some {| Cache.v := value; Cache.t := now + 300 * 1000 |}
  /\ Cache.get key now c' = Some value
  /\ (forall key', key' <> key -> Cache.data c' !! key' = Cache.data c !! key')
  /\ (is_Some (Cache.data c !! key) -> size (Cache.data c') = size (Cache.data c))
  /\ NoDup (map_to_list (Cache.data c')).*1
  /\ Cache.stdTTL c' = Cache.stdTTL cryptoCache.
Proof.
  intros Httl c'. subst c'.
  unfold Cache.get, Cache.set, Cache.live, Cache.ttl_ms. simpl.
  rewrite Httl. change (Cache.stdTTL cryptoCache) with 300.
  rewrite lookup_insert_eq. simpl.
  repeat split.
  - destruct (Z.leb_spec now (now + 300 * 1000)); [reflexivity | lia].
  - intros key' Hne. apply lookup_insert_ne. congruence.
  - intros Hsome. apply map_size_insert_Some. exact Hsome.
  - apply NoDup_fst_map_to_list.
Qed.

Lemma set_stamps_and_overwrites_witness :
  let c := Cache.set crypto_list three 10 cryptoCache in
  let c' := Cache.set crypto_list [] 20 c in
  Cache.data c' !! crypto_list = Some {| Cache.v := []; Cache.t := 20 + 300 * 1000 |}
  /\ Cache.get crypto_list 20 c' = Some []
  /\ (forall key', key' <> crypto_list -> Cache.data c' !! key' = Cache.data c !! key')
  /\ (is_Some (Cache.data c !! crypto_list) -> size (Cache.data c') = size (Cache.data c))
  /\ NoDup (map_to_list (Cache.data c')).*1
  /\ Cache.stdTTL c' = Cache.stdTTL cryptoCache.
Proof.
  apply (set_stamps_and_overwrites (Cache.set crypto_list three 10 cryptoCache)
           crypto_list [] 20).
  reflexivity.
Defined.

(** ** Stepping through the handlers *)

Lemma cryptoController_responds rq w body :
  upstream rq = Responds body ->
  sent (res w) = None ->
  let data := Js.slice 0 (Js.Num 25) body in
  cryptoController rq w
  = (Return tt,
     {| cache := Cache.set crypto_list data (t_set rq) (cache w);
        res := {| statusCode := 200; sent := Some (statusCode (res w), Some data) |};
        trace := trace w ++ [EvFetch ticker_url; EvSet crypto_list data;
                             EvSend (statusCode (res w)) (Some data)] |}).
Proof.
  intros Hup Hsent data. unfold cryptoController, try_catch, bind.
  rewrite (cryptoApi_responds _ _ _ _ Hup).
  unfold cache_set, res_send, res_status, logged. simpl. rewrite Hsent. simpl.
  rewrite <- !app_assoc. reflexivity.
Qed.

Lemma cryptoController_fails rq w e :
  upstream rq = Fails e ->
  cryptoController rq w
  = (Throw e,
     {| cache := cache w;
        res := {| statusCode := 500; sent := sent (res w) |};
        trace := trace w ++ [EvFetch ticker_url; EvLog e; EvLog e; EvLog e] |}).
Proof.
  intros Hup. unfold cryptoController, try_catch, bind.
  rewrite (cryptoApi_fails _ _ _ _ Hup).
  unfold res_status, console_log, emit, throw, logged. simpl.
  rewrite <- !app_assoc. reflexivity.
Qed.

Lemma GET_crypto_hit rq c :
  Cache.has crypto_list (t_has rq) c = true ->
  let cached := Cache.get crypto_list (t_get rq) c in
  GET_crypto rq c
  = (Return tt,
     {| cache := c;
        res := {| statusCode := 200; sent := Some (200, cached) |};
        trace := [EvHas crypto_list true; EvGet crypto_list cached;
                  EvSend 200 cached] |}).
Proof.
  intros Hhas cached.
  unfold GET_crypto, router, cryptoCacheMiddleware, try_catch, bind, cache_has.
  simpl. rewrite Hhas. reflexivity.
Qed.

Lemma GET_crypto_miss_responds rq c body :
  Cache.has crypto_list (t_has rq) c = false ->
  upstream rq = Responds body ->
  let data := Js.slice 0 (Js.Num 25) body in
  GET_crypto rq c
  = (Return tt,
     {| cache := Cache.set crypto_list data (t_set rq) c;
        res := {| statusCode := 200; sent := Some (200, Some data) |};
        trace := [EvHas crypto_list false; EvNext; EvFetch ticker_url;
                  EvSet crypto_list data; EvSend 200 (Some data)] |}).
Proof.
  intros Hhas Hup data.
  unfold GET_crypto, router, cryptoCacheMiddleware, try_catch, bind, cache_has.
  simpl. rewrite Hhas. unfold next, async, try_catch, bind, emit. simpl.
  rewrite (cryptoController_responds _ _ _ Hup) by reflexivity. reflexivity.
Qed.

Lemma GET_crypto_miss_fails rq c e :
  Cache.has crypto_list (t_has rq) c = false ->
  upstream rq = Fails e ->
  GET_crypto rq c
  = (Return tt,
     {| cache := c;
        res := {| statusCode := 500; sent := None |};
        trace := [EvHas crypto_list false; EvNext; EvFetch ticker_url;
                  EvLog e; EvLog e; EvLog e; EvUnhandledRejection e] |}).
Proof.
  intros Hhas Hup.
  unfold GET_crypto, router, cryptoCacheMiddleware, try_catch, bind, cache_has.
  simpl. rewrite Hhas. unfold next, async, try_catch, bind, emit. simpl.
  rewrite (cryptoController_fails _ _ _ Hup). reflexivity.
Qed.

(** ** The request handler *)

(** C2, as the code has it: for every pair of consecutive [GET /crypto]
    requests where the first one misses and fetches successfully and the
    second one performs both its [has] check and its [get] call within the
    TTL window opened by that fetch, the second request hands [send] the
    same body with the same status as the first and performs no upstream
    fetch. *)
Theorem second_request_within_ttl (c : Cache.Cache) (rq1 rq2 : Request) (l : list Ticker) :
  Cache.stdTTL c = Cache.stdTTL cryptoCache ->
  Cache.has crypto_list (t_has rq1) c = false ->
  upstream rq1 = Responds l ->
  t_has rq2 <= t_set rq1 + 300 * 1000 ->
  t_get rq2 <= t_set rq1 + 300 * 1000 ->
  let w1 := snd (GET_crypto rq1 c) in
  let w2 := snd (GET_crypto rq2 (cache w1)) in
  count is_fetch (trace w1) = 1%nat
  /\ count is_fetch (trace w2) = 0%nat
  /\ sent (res w2) = sent (res w1)
  /\ (exists body, sent (res w2) = Some (200, Some body))
  /\ cache w2 = cache w1.
Proof.
  intros Httl Hmiss Hup Hhas2 Hget2 w1 w2. subst w1 w2.
  rewrite (GET_crypto_miss_responds _ _ _ Hmiss Hup). simpl.
  set (data := Js.slice 0 (Js.Num 25) l).
  set (c1 := Cache.set crypto_list data (t_set rq1) c).
  assert (Hlive : forall now, now <= t_set rq1 + 300 * 1000 ->
                              Cache.has crypto_list now c1 = true).
  { intros now Hnow. unfold c1. rewrite has_set.
    destruct (decide (crypto_list = crypto_list)) as [_|Hne]; [|congruence].
    unfold Cache.ttl_ms. rewrite Httl. apply Z.leb_le. exact Hnow. }
  rewrite (GET_crypto_hit rq2 c1 (Hlive _ Hhas2)). simpl.
  assert (Hcached : Cache.get crypto_list (t_get rq2) c1 = Some data).
  { specialize (Hlive _ Hget2). revert Hlive.
    unfold Cache.has, Cache.get, c1, Cache.set. simpl.
    rewrite lookup_insert_eq. simpl. intros ->. reflexivity. }
  rewrite Hcached. repeat split; try reflexivity. exists data. reflexivity.
Qed.

Lemma second_request_within_ttl_witness :
  let rq1 := mkRequest 0 0 1 (Responds three) in
  let rq2 := mkRequest 1000 1000 1200 (Fails (FetchError "ETIMEDOUT")) in
  let w1 := snd (GET_crypto rq1 cryptoCache) in
  let w2 := snd (GET_crypto rq2 (cache w1)) in
  count is_fetch (trace w1) = 1%nat
  /\ count is_fetch (trace w2) = 0%nat
  /\ sent (res w2) = sent (res w1)
  /\ (exists body, sent (res w2) = Some (200, Some body))
  /\ cache w2 = cache w1.
Proof.
  apply (second_request_within_ttl cryptoCache
           (mkRequest 0 0 1 (Responds three))
           (mkRequest 1000 1000 1200 (Fails (FetchError "ETIMEDOUT"))) three).
  - reflexivity.
  - reflexivity.
  - reflexivity.
  - simpl. lia.
  - simpl. lia.
Defined.

(** The claim as stated fails: the second request arrives within the TTL
    window of the first fetch and its [has] check hits, so that it performs
    no fetch; but its [get] reads the clock one millisecond later, past the
    expiry, and the body it sends is [undefined], not the body of the
    first response. *)
Lemma second_request_in_window_can_differ :
  let rq1 := mkRequest 0 0 1 (Responds three) in
  let rq2 := mkRequest 300001 300002 300003 (Responds three) in
  let w1 := snd (GET_crypto rq1 cryptoCache) in
  let w2 := snd (GET_crypto rq2 (cache w1)) in
  Cache.has crypto_list (t_has rq1) cryptoCache = false
  /\ t_set rq1 <= t_has rq2 <= t_set rq1 + 300 * 1000
  /\ Cache.has crypto_list (t_has rq2) (cache w1) = true
  /\ count is_fetch (trace w2) = 0%nat
  /\ sent (res w1) = Some (200, Some three)
  /\ sent (res w2) = Some (200, None)
  /\ sent (res w2) <> sent (res w1).
Proof.
  cbv zeta. split; [reflexivity|]. split; [simpl; lia|].
  repeat split. discriminate.
Qed.

(** More generally, whatever way the first request was answered: as long
    as the entry it leaves behind is live at both clock readings of the
    second request, the second request repeats that answer without a
    fetch. *)
Lemma repeat_within_expiry (c : Cache.Cache) (rq1 rq2 : Request)
    (body : list Ticker) (e : Cache.Entry) :
  let w1 := snd (GET_crypto rq1 c) in
  let w2 := snd (GET_crypto rq2 (cache w1)) in
  sent (res w1) = Some (200, Some body) ->
  Cache.data (cache w1) !! crypto_list = Some e ->
  t_has rq2 <= Cache.t e ->
  t_get rq2 <= Cache.t e ->
  sent (res w2) = Some (200, Some body)
  /\ count is_fetch (trace w2) = 0%nat
  /\ cache w2 = cache w1.
Proof.
  intros w1 w2 Hsent He Hhas2 Hget2. subst w2.
  assert (Hhit : Cache.has crypto_list (t_has rq2) (cache w1) = true).
  { apply has_true_iff. exists e. split; assumption. }
  rewrite (GET_crypto_hit _ _ Hhit). simpl.
  assert (Hcached : Cache.get crypto_list (t_get rq2) (cache w1) = Some (Cache.v e)).
  { unfold Cache.get, Cache.live. rewrite He.
    destruct (Z.leb_spec (t_get rq2) (Cache.t e)); [reflexivity | lia]. }
  rewrite Hcached. repeat split. f_equal. f_equal. f_equal.
  (* the entry holds the body that the first request sent *)
  subst w1. revert Hsent He.
  destruct (Cache.has crypto_list (t_has rq1) c) eqn:Hhas1.
  - rewrite (GET_crypto_hit _ _ Hhas1). simpl. intros [= Hget1] He.
    revert Hget1. unfold Cache.get. rewrite He.
    destruct (Cache.live (t_get rq1) e); [intros [= <-]; reflexivity | discriminate].
  - destruct (upstream rq1) as [l|err] eqn:Hup.
    + rewrite (GET_crypto_miss_responds _ _ _ Hhas1 Hup). simpl.
      rewrite lookup_insert_eq. intros [= <-] [= <-]. reflexivity.
    + rewrite (GET_crypto_miss_fails _ _ _ Hhas1 Hup). simpl. discriminate.
Qed.

(** C3, at the failing input: a request that misses the cache while the
    upstream fetch fails leaves the cache untouched (a later [has] is
    still false), logs the error and rejects with it, and records status
    500 on the response object; but no response is sent to the client. *)
Theorem failed_fetch_sends_no_response :
  let w := snd (GET_crypto failing_request cryptoCache) in
  let e := FetchError "ECONNREFUSED" in
  statusCode (res w) = 500
  /\ sent (res w) = None
  /\ count is_send (trace w) = 0%nat
  /\ cache w = cryptoCache
  /\ Cache.has crypto_list 2 (cache w) = false
  /\ trace w = [EvHas crypto_list false; EvNext; EvFetch ticker_url;
                EvLog e; EvLog e; EvLog e; EvUnhandledRejection e].
Proof.
  rewrite (GET_crypto_miss_fails failing_request cryptoCache
             (FetchError "ECONNREFUSED")) by reflexivity.
  simpl. repeat split; reflexivity.
Qed.

(** The same for every miss with a failing fetch. *)
Lemma failed_fetch_in_general (c : Cache.Cache) (rq : Request) (e : Error) :
  Cache.has crypto_list (t_has rq) c = false ->
  upstream rq = Fails e ->
  let w := snd (GET_crypto rq c) in
  statusCode (res w) = 500
  /\ sent (res w) = None
  /\ cache w = c
  /\ count is_set (trace w) = 0%nat
  /\ (forall now, t_has rq <= now -> Cache.has crypto_list now (cache w) = false)
  /\ count (fun ev => match ev with EvLog _ => true | _ => false end) (trace w) = 3%nat
  /\ last (trace w) = Some (EvUnhandledRejection e).
Proof.
  intros Hmiss Hup w. subst w. rewrite (GET_crypto_miss_fails _ _ _ Hmiss Hup).
  simpl. repeat split; try reflexivity.
  intros now Hnow. exact (has_false_later _ _ _ _ Hmiss Hnow).
Qed.

(** C6: for every [GET /crypto] request arriving after the TTL of the
    cached entry has elapsed, the request performs exactly one upstream
    fetch and, on success, overwrites the entry under ["crypto-list"] with
    the new value and a new, later expiry. *)
Theorem request_after_expiry_refetches (c : Cache.Cache) (rq : Request) (old : Cache.Entry) :
  Cache.stdTTL c = Cache.stdTTL cryptoCache ->
  Cache.data c !! crypto_list = Some old ->
  Cache.t old < t_has rq ->
  t_has rq <= t_set rq ->
  let w := snd (GET_crypto rq c) in
  count is_fetch (trace w) = 1%nat
  /\ (forall l, upstream rq = Responds l ->
        Cache.data (cache w) !! crypto_list
        = Some {| Cache.v := Js.slice 0 (Js.Num 25) l;
                  Cache.t := t_set rq + 300 * 1000 |}
        /\ Cache.t old < t_set rq + 300 * 1000
        /\ count is_set (trace w) = 1%nat).
Proof.
  intros Httl Hold Hexp Hclock w. subst w.
  assert (Hmiss : Cache.has crypto_list (t_has rq) c = false).
  { apply has_false_iff. intros e He. rewrite Hold in He.
    injection He as <-. exact Hexp. }
  destruct (upstream rq) as [body|e] eqn:Hup.
  - rewrite (GET_crypto_miss_responds _ _ _ Hmiss Hup). simpl.
    split; [reflexivity|]. intros l [= <-].
    unfold Cache.ttl_ms. rewrite Httl, lookup_insert_eq.
    change (Cache.stdTTL cryptoCache) with 300.
    repeat split; [lia].
  - rewrite (GET_crypto_miss_fails _ _ _ Hmiss Hup). simpl.
    split; [reflexivity|]. intros l [=].
Qed.

Lemma request_after_expiry_refetches_witness :
  let c := Cache.set crypto_list three 1 cryptoCache in
  let rq := mkRequest 300002 300002 300500 (Responds [tk "ETHBTC"]) in
  let w := snd (GET_crypto rq c) in
  count is_fetch (trace w) = 1%nat
  /\ (forall l, upstream rq = Responds l ->
        Cache.data (cache w) !! crypto_list
        = Some {| Cache.v := Js.slice 0 (Js.Num 25) l;
                  Cache.t := t_set rq + 300 * 1000 |}
        /\ Cache.t {| Cache.v := three; Cache.t := 300001 |} < t_set rq + 300 * 1000
        /\ count is_set (trace w) = 1%nat).
Proof.
  apply (request_after_expiry_refetches
           (Cache.set crypto_list three 1 cryptoCache)
           (mkRequest 300002 300002 300500 (Responds [tk "ETHBTC"]))
           {| Cache.v := three; Cache.t := 300001 |}).
  - reflexivity.
  - reflexivity.
  - simpl. lia.
  - simpl. lia.
Defined.

(** C7: on every cache miss followed by a successful fetch, the request
    handler truncates the upstream result to its first 25 records, stores
    the truncated list in the cache under ["crypto-list"], and responds
    with that truncated list and status 200. *)
Theorem miss_then_successful_fetch (c : Cache.Cache) (rq : Request) (l : list Ticker) :
  Cache.has crypto_list (t_has rq) c = false ->
  upstream rq = Responds l ->
  let w := snd (GET_crypto rq c) in
  let truncated := take 25 l in
  (length truncated <= 25)%nat
  /\ cache w = Cache.set crypto_list truncated (t_set rq) c
  /\ Cache.data (cache w) !! crypto_list
     = Some {| Cache.v := truncated; Cache.t := t_set rq + Cache.ttl_ms c |}
  /\ sent (res w) = Some (200, Some truncated)
  /\ statusCode (res w) = 200
  /\ count is_fetch (trace w) = 1%nat
  /\ count is_send (trace w) = 1%nat.
Proof.
  intros Hmiss Hup w truncated. subst w truncated.
  rewrite (GET_crypto_miss_responds _ _ _ Hmiss Hup). simpl.
  rewrite slice_from_0 by lia. change (Z.to_nat 25) with 25%nat.
  split; [rewrite length_take; lia|].
  rewrite lookup_insert_eq. repeat split.
Qed.

Lemma miss_then_successful_fetch_witness :
  let rq := mkRequest 0 0 1 (Responds three) in
  let w := snd (GET_crypto rq cryptoCache) in
  let truncated := take 25 three in
  (length truncated <= 25)%nat
  /\ cache w = Cache.set crypto_list truncated (t_set rq) cryptoCache
  /\ Cache.data (cache w) !! crypto_list
     = Some {| Cache.v := truncated; Cache.t := t_set rq + Cache.ttl_ms cryptoCache |}
  /\ sent (res w) = Some (200, Some truncated)
  /\ statusCode (res w) = 200
  /\ count is_fetch (trace w) = 1%nat
  /\ count is_send (trace w) = 1%nat.
Proof.
  apply (miss_then_successful_fetch cryptoCache (mkRequest 0 0 1 (Responds three)) three).
  - reflexivity.
  - reflexivity.
Defined.

(** C9, as the code has it: every [GET /crypto] request is handled by
    exactly one of the two responders.  If the cache check hits, the
    middleware sends what [get] returns for ["crypto-list"], which is the
    value of the cached entry whenever that entry is still live when [get]
    reads the clock, and [next] is never called; if the check misses, the
    middleware sends nothing and calls [next] exactly once, after which
    the events are those of the controller. *)
Theorem exactly_one_responder (c : Cache.Cache) (rq : Request) :
  let w := snd (GET_crypto rq c) in
  if Cache.has crypto_list (t_has rq) c then
    let cached := Cache.get crypto_list (t_get rq) c in
    trace w = [EvHas crypto_list true; EvGet crypto_list cached; EvSend 200 cached]
    /\ sent (res w) = Some (200, cached)
    /\ count is_next (trace w) = 0%nat
    /\ count is_fetch (trace w) = 0%nat
    /\ count is_send (trace w) = 1%nat
    /\ (exists e, Cache.data c !! crypto_list = Some e
                  /\ (t_get rq <= Cache.t e -> cached = Some (Cache.v e)))
  else
    let controller :=
      snd (async (cryptoController rq) {| cache := c; res := fresh_res; trace := [] |}) in
    trace w = [EvHas crypto_list false; EvNext] ++ trace controller
    /\ count is_next (trace w) = 1%nat
    /\ count is_next (trace controller) = 0%nat
    /\ res w = res controller
    /\ cache w = cache controller.
Proof.
  intros w. subst w.
  destruct (Cache.has crypto_list (t_has rq) c) eqn:Hhas.
  - rewrite (GET_crypto_hit _ _ Hhas). simpl.
    repeat split.
    apply has_true_iff in Hhas. destruct Hhas as (e & He & _).
    exists e. split; [exact He|]. intros Hlive.
    unfold Cache.get, Cache.live. rewrite He.
    destruct (Z.leb_spec (t_get rq) (Cache.t e)); [reflexivity | lia].
  - destruct (upstream rq) as [body|e] eqn:Hup.
    + rewrite (GET_crypto_miss_responds _ _ _ Hhas Hup).
      unfold async, try_catch.
      rewrite (cryptoController_responds _ _ _ Hup) by reflexivity.
      simpl. repeat split.
    + rewrite (GET_crypto_miss_fails _ _ _ Hhas Hup).
      unfold async, try_catch.
      rewrite (cryptoController_fails _ _ _ Hup).
      simpl. repeat split.
Qed.

(** The claim as stated fails in its hit branch: the check hits at the very
    expiry of the entry, [get] reads the clock one millisecond later, and
    the middleware sends [undefined] instead of the cached value. *)
Lemma hit_can_send_undefined :
  let c := Cache.set crypto_list three 1 cryptoCache in
  let rq := mkRequest 300001 300002 300003 (Responds three) in
  Cache.has crypto_list (t_has rq) c = true
  /\ Cache.data c !! crypto_list = Some {| Cache.v := three; Cache.t := 300001 |}
  /\ sent (res (snd (GET_crypto rq c))) = Some (200, None)
  /\ sent (res (snd (GET_crypto rq c))) <> Some (200, Some three).
Proof.
  repeat split. discriminate.
Qed.

(** ** The caller discipline on [get] *)

Lemma GET_crypto_cases rq c :
  (exists cached,
      Cache.has crypto_list (t_has rq) c = true
      /\ cached = Cache.get crypto_list (t_get rq) c
      /\ cache (snd (GET_crypto rq c)) = c
      /\ trace (snd (GET_crypto rq c))
         = [EvHas crypto_list true; EvGet crypto_list cached; EvSend 200 cached])
  \/ (exists data,
        trace (snd (GET_crypto rq c))
        = [EvHas crypto_list false; EvNext; EvFetch ticker_url;
           EvSet crypto_list data; EvSend 200 (Some data)])
  \/ (exists e,
        trace (snd (GET_crypto rq c))
        = [EvHas crypto_list false; EvNext; EvFetch ticker_url;
           EvLog e; EvLog e; EvLog e; EvUnhandledRejection e]).
Proof.
  destruct (Cache.has crypto_list (t_has rq) c) eqn:Hhas.
  - left. eexists. rewrite (GET_crypto_hit _ _ Hhas). simpl. eauto.
  - destruct (upstream rq) as [body|e] eqn:Hup.
    + right; left. eexists.
      rewrite (GET_crypto_miss_responds _ _ _ Hhas Hup). reflexivity.
    + right; right. exists e.
      rewrite (GET_crypto_miss_fails _ _ _ Hhas Hup). reflexivity.
Qed.

Lemma serve_cons rq rqs c :
  serve (rq :: rqs) c
  = (fst (serve rqs (cache (snd (GET_crypto rq c)))),
     trace (snd (GET_crypto rq c)) ++ snd (serve rqs (cache (snd (GET_crypto rq c))))).
Proof.
  simpl. destruct (serve rqs (cache (snd (GET_crypto rq c)))). reflexivity.
Qed.

Lemma serve_guarded rqs : forall c prev,
  guarded_after prev (snd (serve rqs c)) = true.
Proof.
  induction rqs as [|rq rqs IH]; intros c prev; [reflexivity|].
  rewrite serve_cons. cbn [snd].
  destruct (GET_crypto_cases rq c)
    as [(cached & _ & _ & _ & ->) | [(data & ->) | (e & ->)]];
    cbn [app guarded_after guards andb]; rewrite ?IH.
  - rewrite bool_decide_eq_true_2 by reflexivity.
    destruct prev as [[]|]; reflexivity.
  - destruct prev as [[]|]; reflexivity.
  - destruct prev as [[]|]; reflexivity.
Qed.

Lemma serve_defined rqs : forall c,
  Forall same_instant rqs -> get_always_defined (snd (serve rqs c)).
Proof.
  induction rqs as [|rq rqs IH]; intros c Hall key Hin; [exact Hin|].
  apply Forall_cons in Hall. destruct Hall as [Hrq Hall].
  rewrite serve_cons in Hin. cbn [snd] in Hin.
  apply in_app_or in Hin. destruct Hin as [Hin|Hin]; [|exact (IH _ Hall key Hin)].
  destruct (GET_crypto_cases rq c)
    as [(cached & Hhas & Hcached & _ & Htr) | [(data & Htr) | (e & Htr)]];
    rewrite Htr in Hin; simpl in Hin.
  - destruct Hin as [[=]|[[= _ Hnone]|[[=]|[]]]].
    red in Hrq. rewrite Hrq in Hcached.
    destruct (get_after_has _ _ _ Hhas) as [l Hl]. congruence.
  - repeat (destruct Hin as [[=]|Hin]). exact Hin.
  - repeat (destruct Hin as [[=]|Hin]). exact Hin.
Qed.

(** An absent read after a successful check has one cause only: the entry
    expired between the two clock readings. *)
Lemma absent_read_only_by_expiry key c t1 t2 :
  Cache.has key t1 c = true ->
  Cache.get key t2 c = None ->
  exists e, Cache.data c !! key = Some e /\ t1 <= Cache.t e < t2.
Proof.
  unfold Cache.has, Cache.get, Cache.live.
  destruct (Cache.data c !! key) as [e|]; [|discriminate].
  intros H1 H2. exists e. split; [reflexivity|].
  apply Z.leb_le in H1.
  destruct (Z.leb_spec t2 (Cache.t e)); [discriminate | lia].
Qed.

(** A [get] in the trace of a run that took its absent-read branch belongs
    to a request that found an entry which expired between its [has] check
    and its [get] call. *)
Lemma serve_absent_read rqs : forall c key,
  In (EvGet key None) (snd (serve rqs c)) ->
  exists rqs1 rq rqs2 e,
    rqs = rqs1 ++ rq :: rqs2
    /\ key = crypto_list
    /\ Cache.data (fst (serve rqs1 c)) !! crypto_list = Some e
    /\ t_has rq <= Cache.t e < t_get rq.
Proof.
  induction rqs as [|rq rqs IH]; intros c key Hin; [destruct Hin|].
  rewrite serve_cons in Hin. cbn [snd] in Hin.
  apply in_app_or in Hin. destruct Hin as [Hin|Hin].
  - destruct (GET_crypto_cases rq c)
      as [(cached & Hhas & Hcached & _ & Htr) | [(data & Htr) | (e & Htr)]];
      rewrite Htr in Hin; simpl in Hin.
    + destruct Hin as [[=]|[[= <- Hnone]|[[=]|[]]]].
      rewrite Hnone in Hcached. symmetry in Hcached.
      destruct (absent_read_only_by_expiry _ _ _ _ Hhas Hcached) as (e & He & Hexp).
      exists [], rq, rqs, e. repeat split; [exact He | lia | lia].
    + repeat (destruct Hin as [[=]|Hin]). destruct Hin.
    + repeat (destruct Hin as [[=]|Hin]). destruct Hin.
  - destruct (IH _ _ Hin) as (rqs1 & rq' & rqs2 & e & -> & Hkey & He & Hexp).
    exists (rq :: rqs1), rq', rqs2, e. rewrite serve_cons. cbn [fst].
    repeat split; [exact Hkey | exact He | lia | lia].
Qed.

(** C8, as the code has it: in every run of the program, [get] is only
    ever invoked directly after a [has] check for the same key returned
    true; a [get] takes its absent-read branch only when the entry that
    the request found in the cache expires between its [has] check and its
    [get] call; so that whenever each request reads the same clock value
    in [has] and in [get], no [get] takes its absent-read branch. *)
Theorem get_is_guarded_by_has (rqs : list Request) (c : Cache.Cache) :
  let tr := snd (serve rqs c) in
  guarded tr = true
  /\ (forall key, In (EvGet key None) tr ->
        exists rqs1 rq rqs2 e,
          rqs = rqs1 ++ rq :: rqs2
          /\ key = crypto_list
          /\ Cache.data (fst (serve rqs1 c)) !! crypto_list = Some e
          /\ t_has rq <= Cache.t e < t_get rq)
  /\ (Forall same_instant rqs -> get_always_defined tr).
Proof.
  split; [apply serve_guarded|].
  split; [apply serve_absent_read | apply serve_defined].
Qed.

Lemma get_is_guarded_by_has_witness :
  let rqs := [mkRequest 0 0 1 (Responds three);
              mkRequest 300001 300001 300003 (Responds three)] in
  let tr := snd (serve rqs cryptoCache) in
  Forall same_instant rqs /\ guarded tr = true /\ get_always_defined tr.
Proof.
  intros rqs tr.
  assert (Hsame : Forall same_instant rqs).
  { repeat constructor. }
  destruct (get_is_guarded_by_has rqs cryptoCache) as (Hg & _ & Hd).
  split; [exact Hsame|]. split; [exact Hg | exact (Hd Hsame)].
Defined.

(** The claim as stated fails: with the entry expiring between the [has]
    check and the [get] call, [get] returns [undefined] although [has]
    had just returned true. *)
Lemma absent_read_is_reachable :
  guarded (snd (serve race_requests cryptoCache)) = true
  /\ ~ get_always_defined (snd (serve race_requests cryptoCache)).
Proof.
  split; [reflexivity|].
  intros H. apply (H crypto_list). vm_compute.
  do 6 right. left. reflexivity.
Qed.

(** * Further properties of the sources *)

(** ** The services *)

Lemma slice_negative_end {A : Type} (n : Z) (l : list A) :
  n < 0 -> Js.slice 0 (Js.Num n) l = take (Z.to_nat (Z.of_nat (length l) + n)) l.
Proof.
  intros Hn. unfold Js.slice.
  replace (0 <? 0) with false by reflexivity.
  destruct (Z.ltb_spec n 0) as [_|?]; [|lia].
  rewrite (Z.min_l 0) by lia. rewrite Z.sub_0_r.
  change (Z.to_nat 0) with 0%nat. rewrite drop_0.
  destruct (Z.le_ge_cases 0 (Z.of_nat (length l) + n)).
  - rewrite !Z.max_l by lia. reflexivity.
  - rewrite Z.max_r by lia. simpl.
    replace (Z.to_nat (Z.of_nat (length l) + n)) with 0%nat by lia. reflexivity.
Qed.

Lemma slice_from_0_prefix {A : Type} (amount : Js.Amount) (l : list A) :
  Js.slice 0 amount l `prefix_of` l.
Proof.
  destruct amount as [|n].
  - rewrite slice_undefined. reflexivity.
  - destruct (Z.lt_ge_cases n 0).
    + rewrite slice_negative_end by assumption. apply prefix_take.
    + rewrite slice_from_0 by assumption. apply prefix_take.
Qed.

(** X1: called with a negative amount [N], [cryptoApi] does not fail: it
    returns the upstream list without its last [|N|] records, and the empty
    list when the upstream list has no more than [|N|] records. *)
Theorem cryptoApi_negative_amount (rq : Request) (w : World) (l : list Ticker) (N : Z) :
  upstream rq = Responds l ->
  N < 0 ->
  fst (cryptoApi rq (Js.Num N) w) = Return (take (length l - Z.to_nat (- N)) l)
  /\ (Z.of_nat (length l) <= - N -> fst (cryptoApi rq (Js.Num N) w) = Return []).
Proof.
  intros Hup HN. rewrite (cryptoApi_responds _ _ _ _ Hup). simpl.
  rewrite slice_negative_end by assumption.
  replace (Z.to_nat (Z.of_nat (length l) + N)) with (length l - Z.to_nat (- N))%nat by lia.
  split; [reflexivity|]. intros Hshort.
  replace (length l - Z.to_nat (- N))%nat with 0%nat by lia. reflexivity.
Qed.

Lemma cryptoApi_negative_amount_witness :
  fst (cryptoApi (mkRequest 0 0 1 (Responds three)) (Js.Num (-1)) empty_world)
  = Return (take (length three - Z.to_nat (- (-1))) three)
  /\ (Z.of_nat (length three) <= - (-1) ->
      fst (cryptoApi (mkRequest 0 0 1 (Responds three)) (Js.Num (-1)) empty_world)
      = Return []).
Proof.
  apply (cryptoApi_negative_amount (mkRequest 0 0 1 (Responds three)) empty_world three (-1)).
  - reflexivity.
  - lia.
Defined.

(** X2: whatever the amount (a count, a negative number, [undefined]),
    a successful [cryptoApi] returns a prefix of the upstream list: it
    never reorders records, never drops one from the front and never
    returns more than the upstream sent. *)
Theorem cryptoApi_always_prefix (rq : Request) (w : World) (l : list Ticker)
    (amount : Js.Amount) :
  upstream rq = Responds l ->
  exists r : list Ticker,
    fst (cryptoApi rq amount w) = Return r
    /\ r `prefix_of` l
    /\ (length r <= length l)%nat.
Proof.
  intros Hup. exists (Js.slice 0 amount l).
  rewrite (cryptoApi_responds _ _ _ _ Hup). split; [reflexivity|].
  pose proof (slice_from_0_prefix amount l) as Hpre.
  split; [exact Hpre | exact (prefix_length _ _ Hpre)].
Qed.

Lemma cryptoApi_always_prefix_witness :
  exists r : list Ticker,
    fst (cryptoApi (mkRequest 0 0 1 (Responds three)) (Js.Num 7) empty_world) = Return r
    /\ r `prefix_of` three
    /\ (length r <= length three)%nat.
Proof.
  apply (cryptoApi_always_prefix (mkRequest 0 0 1 (Responds three)) empty_world three (Js.Num 7)).
  reflexivity.
Defined.

(** X3: when the upstream call fails, [cryptoApi] rethrows the very error
    it caught, after the error was logged twice (once by [FetchApi], once
    by [cryptoApi]); the call was made once, with no retry, and neither the
    cache nor the response was touched. *)
Theorem cryptoApi_failure (rq : Request) (amount : Js.Amount) (w : World) (e : Error) :
  upstream rq = Fails e ->
  let r := cryptoApi rq amount w in
  fst r = Throw e
  /\ trace (snd r) = trace w ++ [EvFetch ticker_url; EvLog e; EvLog e]
  /\ cache (snd r) = cache w
  /\ res (snd r) = res w.
Proof.
  intros Hup r. subst r. rewrite (cryptoApi_fails _ _ _ _ Hup).
  repeat split.
Qed.

Lemma cryptoApi_failure_witness :
  let r := cryptoApi failing_request (Js.Num 25) empty_world in
  let e := FetchError "ECONNREFUSED" in
  fst r = Throw e
  /\ trace (snd r) = trace empty_world ++ [EvFetch ticker_url; EvLog e; EvLog e]
  /\ cache (snd r) = cache empty_world
  /\ res (snd r) = res empty_world.
Proof.
  apply (cryptoApi_failure failing_request (Js.Num 25) empty_world (FetchError "ECONNREFUSED")).
  reflexivity.
Defined.

(** X4: [FetchApi] calls the URL it is given exactly once.  On success it
    returns the body as it came and logs nothing; on failure it logs the
    error once and rethrows that same error.  Either way it adds nothing
    else to the world: no caching and no response at this layer. *)
Theorem FetchApi_one_call (rq : Request) (url : string) (w : World) :
  match upstream rq with
  | Responds body => FetchApi rq url w = (Return body, logged [EvFetch url] w)
  | Fails e => FetchApi rq url w = (Throw e, logged [EvFetch url; EvLog e] w)
  end.
Proof.
  destruct (upstream rq) as [body|e] eqn:Hup.
  - exact (FetchApi_responds _ _ _ _ Hup).
  - exact (FetchApi_fails _ _ _ _ Hup).
Qed.

(** ** The middleware on its own *)

(** X5: on a cache miss the middleware does nothing but hand over to
    [next]: the world [next] runs in differs only by the [has] check, and
    the middleware returns what [next] returns.  Should [next] throw, the
    middleware logs the error once and rethrows that same error. *)
Theorem middleware_miss_runs_next (rq : Request) (nxt : M unit) (w : World) :
  Cache.has crypto_list (t_has rq) (cache w) = false ->
  cryptoCacheMiddleware rq nxt w
  = match nxt (logged [EvHas crypto_list false] w) with
    | (Return a, w') => (Return a, w')
    | (Throw e, w') => (Throw e, logged [EvLog e] w')
    end.
Proof.
  intros Hmiss. unfold cryptoCacheMiddleware, try_catch, bind, cache_has.
  rewrite Hmiss. unfold logged. simpl.
  destruct (nxt _) as [[a|e] w']; reflexivity.
Qed.

Lemma middleware_miss_runs_next_witness :
  cryptoCacheMiddleware failing_request (throw ErrHttpHeadersSent) empty_world
  = match throw ErrHttpHeadersSent (logged [EvHas crypto_list false] empty_world) with
    | (Return a, w') => (Return a, w')
    | (Throw e, w') => (Throw e, logged [EvLog e] w')
    end.
Proof.
  apply (middleware_miss_runs_next failing_request (throw ErrHttpHeadersSent) empty_world).
  reflexivity.
Defined.

(** X6: on a cache hit the middleware never calls [next]: whatever the
    next handler is, the outcome and the world are the same. *)
Theorem middleware_hit_ignores_next (rq : Request) (nxt1 nxt2 : M unit) (w : World) :
  Cache.has crypto_list (t_has rq) (cache w) = true ->
  cryptoCacheMiddleware rq nxt1 w = cryptoCacheMiddleware rq nxt2 w.
Proof.
  intros Hhit. unfold cryptoCacheMiddleware, try_catch, bind, cache_has.
  rewrite Hhit. reflexivity.
Qed.

Lemma middleware_hit_ignores_next_witness :
  let w := {| cache := Cache.set crypto_list three 1 cryptoCache;
              res := fresh_res; trace := [] |} in
  let rq := mkRequest 5 6 7 (Responds []) in
  cryptoCacheMiddleware rq (next rq) w
  = cryptoCacheMiddleware rq (throw ErrHttpHeadersSent) w.
Proof.
  apply (middleware_hit_ignores_next (mkRequest 5 6 7 (Responds []))
           (next (mkRequest 5 6 7 (Responds []))) (throw ErrHttpHeadersSent)
           {| cache := Cache.set crypto_list three 1 cryptoCache;
              res := fresh_res; trace := [] |}).
  reflexivity.
Defined.

(** ** One request *)

Lemma GET_crypto_outcomes rq c :
  (Cache.has crypto_list (t_has rq) c = true
   /\ GET_crypto rq c
      = (Return tt,
         {| cache := c;
            res := {| statusCode := 200;
                      sent := Some (200, Cache.get crypto_list (t_get rq) c) |};
            trace := [EvHas crypto_list true;
                      EvGet crypto_list (Cache.get crypto_list (t_get rq) c);
                      EvSend 200 (Cache.get crypto_list (t_get rq) c)] |}))
  \/ (exists l,
        Cache.has crypto_list (t_has rq) c = false
        /\ upstream rq = Responds l
        /\ GET_crypto rq c
           = (Return tt,
              {| cache := Cache.set crypto_list (take 25 l) (t_set rq) c;
                 res := {| statusCode := 200; sent := Some (200, Some (take 25 l)) |};
                 trace := [EvHas crypto_list false; EvNext; EvFetch ticker_url;
                           EvSet crypto_list (take 25 l);
                           EvSend 200 (Some (take 25 l))] |}))
  \/ (exists e,
        Cache.has crypto_list (t_has rq) c = false
        /\ upstream rq = Fails e
        /\ GET_crypto rq c
           = (Return tt,
              {| cache := c;
                 res := {| statusCode := 500; sent := None |};
                 trace := failure_events e |})).
Proof.
  destruct (Cache.has crypto_list (t_has rq) c) eqn:Hhas.
  - left. split; [reflexivity|]. exact (GET_crypto_hit _ _ Hhas).
  - destruct (upstream rq) as [l|e] eqn:Hup.
    + right; left. exists l. do 2 (split; [reflexivity|]).
      rewrite (GET_crypto_miss_responds _ _ _ Hhas Hup).
      rewrite slice_from_0 by lia. reflexivity.
    + right; right. exists e. do 2 (split; [reflexivity|]).
      exact (GET_crypto_miss_fails _ _ _ Hhas Hup).
Qed.

(** X7: the route never throws into Express: whatever the cache holds and
    whatever the upstream does, the handlers return normally, so the
    [catch] block of the middleware is never entered on this route. *)
Theorem GET_crypto_never_throws (rq : Request) (c : Cache.Cache) :
  fst (GET_crypto rq c) = Return tt
  /\ (Cache.has crypto_list (t_has rq) c = true ->
      count is_log (trace (snd (GET_crypto rq c))) = 0%nat).
Proof.
  destruct (GET_crypto_outcomes rq c)
    as [(Hhas & ->) | [(l & Hhas & _ & ->) | (e & Hhas & _ & ->)]];
    (split; [reflexivity|]); intros Hhit; try congruence.
  reflexivity.
Qed.

(** X8: a body that is served from the cache is never stale: it is the
    value of an entry that had not expired at either of the two clock
    readings of the request. *)
Theorem served_from_cache_is_live (rq : Request) (c : Cache.Cache)
    (status : Z) (body : list Ticker) :
  Cache.has crypto_list (t_has rq) c = true ->
  sent (res (snd (GET_crypto rq c))) = Some (status, Some body) ->
  exists e, Cache.data c !! crypto_list = Some e
            /\ body = Cache.v e
            /\ t_has rq <= Cache.t e
            /\ t_get rq <= Cache.t e.
Proof.
  intros Hhit. rewrite (GET_crypto_hit _ _ Hhit). simpl. intros [= _ Hget].
  apply has_true_iff in Hhit. destruct Hhit as (e & He & Hlive).
  exists e. split; [exact He|].
  revert Hget. unfold Cache.get, Cache.live. rewrite He.
  destruct (Z.leb_spec (t_get rq) (Cache.t e)); [|discriminate].
  intros [= <-]. repeat split; assumption.
Qed.

Lemma served_from_cache_is_live_witness :
  let c := Cache.set crypto_list three 1 cryptoCache in
  let rq := mkRequest 5 6 7 (Responds []) in
  exists e, Cache.data c !! crypto_list = Some e
            /\ three = Cache.v e
            /\ t_has rq <= Cache.t e
            /\ t_get rq <= Cache.t e.
Proof.
  apply (served_from_cache_is_live (mkRequest 5 6 7 (Responds []))
           (Cache.set crypto_list three 1 cryptoCache) 200 three).
  - reflexivity.
  - reflexivity.
Defined.

(** ** Whole runs *)

Lemma count_app p tr1 tr2 :
  count p (tr1 ++ tr2) = (count p tr1 + count p tr2)%nat.
Proof. unfold count. rewrite List.filter_app, length_app. reflexivity. Qed.

(** Case analysis on the first request of a run. *)
Ltac first_request rq c :=
  rewrite (serve_cons rq _ c); cbn [fst snd];
  destruct (GET_crypto_outcomes rq c)
    as [(?Hhas & ->) | [(?l & ?Hhas & ?Hup & ->) | (?e & ?Hhas & ?Hup & ->)]];
  cbn [fst snd cache trace res].

(** Counting in a run whose first request has been split off. *)
Ltac count_events IH :=
  unfold count in *; rewrite ?List.filter_app, ?length_app; simpl;
  match goal with
  | |- context [serve _ ?c'] => specialize (IH c')
  end; lia.

(** X9: every request is either answered exactly once or ends in an
    unhandled rejection, never both and never neither; and it ends in a
    rejection exactly when it misses the cache while the upstream call
    fails. *)
Theorem every_request_answered_or_rejected (rq : Request) (c : Cache.Cache) :
  let tr := trace (snd (GET_crypto rq c)) in
  (count is_send tr + count is_rejection tr = 1)%nat
  /\ (count is_rejection tr = 1%nat <->
      Cache.has crypto_list (t_has rq) c = false /\ exists e, upstream rq = Fails e).
Proof.
  cbv zeta.
  destruct (GET_crypto_outcomes rq c)
    as [(Hhas & ->) | [(l & Hhas & Hup & ->) | (e & Hhas & Hup & ->)]];
    (split; [reflexivity|]); cbn.
  - split; [discriminate|]. intros [Hmiss _]. congruence.
  - split; [discriminate|]. intros [_ [e He]]. congruence.
  - split; [|reflexivity]. intros _. split; [exact Hhas | exists e; exact Hup].
Qed.


(** X11: the status 500 that the controller records on a failure is never
    sent: in no run does a handler hand [send] a response with status
    500. *)
Theorem status_500_is_never_sent (rqs : list Request) (c : Cache.Cache) :
  Forall (not_sent_with_status 500) (snd (serve rqs c)).
Proof.
  revert c. induction rqs as [|rq rqs IH]; intros c; [constructor|].
  first_request rq c; apply Forall_app; (split; [|apply IH]);
    repeat constructor; simpl; lia.
Qed.

(** X12: the program only ever writes the key ["crypto-list"] and never
    changes the TTL the cache was built with: every other key is left as
    it was, and a cache that starts empty never holds more than one
    entry. *)
Theorem only_crypto_list_is_written (rqs : list Request) (c : Cache.Cache) :
  delete crypto_list (Cache.data (fst (serve rqs c))) = delete crypto_list (Cache.data c)
  /\ Cache.stdTTL (fst (serve rqs c)) = Cache.stdTTL c
  /\ (Cache.data c = ∅ -> (size (Cache.data (fst (serve rqs c))) <= 1)%nat).
Proof.
  assert (Hmain : forall c,
    delete crypto_list (Cache.data (fst (serve rqs c))) = delete crypto_list (Cache.data c)
    /\ Cache.stdTTL (fst (serve rqs c)) = Cache.stdTTL c).
  { clear c. induction rqs as [|rq rqs IH]; intros c; [split; reflexivity|].
    first_request rq c; try apply IH.
    destruct (IH (Cache.set crypto_list (take 25 l) (t_set rq) c)) as [-> ->].
    simpl. rewrite delete_insert_eq. split; reflexivity. }
  destruct (Hmain c) as [Hdel Httl]. split; [exact Hdel|]. split; [exact Httl|].
  intros Hempty. rewrite Hempty, delete_empty in Hdel.
  pose proof (map_size_delete crypto_list (Cache.data (fst (serve rqs c)))) as Hsize.
  rewrite Hdel, map_size_empty in Hsize.
  destruct (Cache.data (fst (serve rqs c)) !! crypto_list); simpl in Hsize; lia.
Qed.

(** What a run can put into the cache and on the wire: if [P] holds of the
    entry under ["crypto-list"] at the start and of every entry that a
    request of the run could write, it holds of the entry at the end and
    of the entry behind every body sent. *)
Lemma serve_entries (P : Cache.Entry -> Prop) (rqs : list Request) : forall c,
  (forall e, Cache.data c !! crypto_list = Some e -> P e) ->
  (forall rq l, In rq rqs -> upstream rq = Responds l ->
     P {| Cache.v := take 25 l; Cache.t := t_set rq + Cache.ttl_ms c |}) ->
  (forall e, Cache.data (fst (serve rqs c)) !! crypto_list = Some e -> P e)
  /\ Forall (sent_body (fun body => exists e, P e /\ body = Cache.v e))
            (snd (serve rqs c)).
Proof.
  induction rqs as [|rq rqs IH]; intros c Hinit Hnew.
  - split; [exact Hinit | constructor].
  - assert (Hnew' : forall rq' l, In rq' rqs -> upstream rq' = Responds l ->
              P {| Cache.v := take 25 l; Cache.t := t_set rq' + Cache.ttl_ms c |}).
    { intros rq' l Hin. apply Hnew. right. exact Hin. }
    first_request rq c.
    + destruct (IH c Hinit Hnew') as [Hend Hsent]. split; [exact Hend|].
      apply Forall_app. split; [|exact Hsent].
      repeat constructor. unfold Cache.get.
      destruct (Cache.data c !! crypto_list) as [e|] eqn:He; simpl; [|exact I].
      destruct (Cache.live (t_get rq) e); simpl; [|exact I].
      exists e. split; [apply Hinit; reflexivity | reflexivity].
    + pose proof (Hnew rq l (or_introl eq_refl) Hup) as Hfresh.
      destruct (IH (Cache.set crypto_list (take 25 l) (t_set rq) c)) as [Hend Hsent].
      * simpl. rewrite lookup_insert_eq. intros e [= <-]. exact Hfresh.
      * exact Hnew'.
      * split; [exact Hend|]. apply Forall_app. split; [|exact Hsent].
        repeat constructor. simpl. eexists. split; [exact Hfresh | reflexivity].
    + destruct (IH c Hinit Hnew') as [Hend Hsent]. split; [exact Hend|].
      apply Forall_app. split; [|exact Hsent]. repeat constructor.
Qed.

(** X13: starting from the empty five-minute cache, whatever the cache
    holds under ["crypto-list"] after a run was fetched by a request of
    that run: its value is the first 25 records of an upstream answer, and
    its expiry is the time of that request's [set] plus 300 seconds. *)
Theorem cache_holds_only_fetched_data (rqs : list Request) (e : Cache.Entry) :
  Cache.data (fst (serve rqs cryptoCache)) !! crypto_list = Some e ->
  exists rq l, In rq rqs
               /\ upstream rq = Responds l
               /\ e = {| Cache.v := take 25 l; Cache.t := t_set rq + 300 * 1000 |}.
Proof.
  apply (serve_entries
           (fun e => exists rq l, In rq rqs /\ upstream rq = Responds l
                     /\ e = {| Cache.v := take 25 l; Cache.t := t_set rq + 300 * 1000 |})
           rqs cryptoCache).
  - intros e'. simpl. rewrite lookup_empty. discriminate.
  - intros rq l Hin Hup. exists rq, l. auto.
Qed.

Lemma cache_holds_only_fetched_data_witness :
  exists rq l, In rq race_requests
               /\ upstream rq = Responds l
               /\ {| Cache.v := three; Cache.t := 300001 |}
                  = {| Cache.v := take 25 l; Cache.t := t_set rq + 300 * 1000 |}.
Proof.
  apply (cache_holds_only_fetched_data race_requests
           {| Cache.v := three; Cache.t := 300001 |}).
  reflexivity.
Defined.

(** X14: starting from the empty cache, every non-empty body the program
    sends, from the cache or straight from the controller, is the first 25
    records of what the upstream API answered to a request of the run; so
    no response carries more than 25 records. *)
Theorem only_fetched_data_is_sent (rqs : list Request) :
  Forall (sent_body (fun body => fetched_by rqs body /\ (length body <= 25)%nat))
         (snd (serve rqs cryptoCache)).
Proof.
  destruct (serve_entries (fun e => fetched_by rqs (Cache.v e)) rqs cryptoCache)
    as [_ Hsent].
  - intros e. simpl. rewrite lookup_empty. discriminate.
  - intros rq l Hin Hup. exists rq, l. auto.
  - eapply Forall_impl; [exact Hsent|].
    intros [] Hev; simpl in *; try exact I.
    destruct body as [body|]; [|exact I].
    destruct Hev as (e & Hfetched & ->). split; [exact Hfetched|].
    destruct Hfetched as (rq & l & _ & _ & ->). rewrite length_take. lia.
Qed.

(** X15: a hit does not extend the life of the entry.  Any number of
    requests that read the cache before the entry expires are all answered
    from it, with no fetch and no write, and leave the cache exactly as it
    was, so the entry still expires when it would have. *)
Theorem hits_do_not_refresh (c : Cache.Cache) (e : Cache.Entry) (rqs : list Request) :
  Cache.data c !! crypto_list = Some e ->
  Forall (reads_by (Cache.t e)) rqs ->
  serve rqs c = (c, concat (repeat (hit_events (Cache.v e)) (length rqs)))
  /\ (forall now, Cache.t e < now ->
        Cache.has crypto_list now (fst (serve rqs c)) = false).
Proof.
  intros He Hall.
  assert (Hserve : serve rqs c
                   = (c, concat (repeat (hit_events (Cache.v e)) (length rqs)))).
  { induction Hall as [|rq rqs [Hh Hg] _ IH]; [reflexivity|].
    assert (Hhit : Cache.has crypto_list (t_has rq) c = true).
    { apply has_true_iff. exists e. split; assumption. }
    rewrite serve_cons, (GET_crypto_hit _ _ Hhit). cbn [fst snd cache trace].
    rewrite IH. cbn [fst snd length repeat concat]. f_equal. f_equal.
    unfold Cache.get, Cache.live. rewrite He.
    destruct (Z.leb_spec (t_get rq) (Cache.t e)); [reflexivity | lia]. }
  split; [exact Hserve|]. rewrite Hserve. simpl.
  intros now Hnow. apply has_false_iff. intros e' He'.
  rewrite He in He'. injection He' as <-. exact Hnow.
Qed.

Lemma hits_do_not_refresh_witness :
  let c := Cache.set crypto_list three 1 cryptoCache in
  let e := {| Cache.v := three; Cache.t := 300001 |} in
  let rqs := [mkRequest 10 10 11 (Responds []); mkRequest 300000 300001 300002 (Fails ErrHttpHeadersSent)] in
  serve rqs c = (c, concat (repeat (hit_events (Cache.v e)) (length rqs)))
  /\ (forall now, Cache.t e < now ->
        Cache.has crypto_list now (fst (serve rqs c)) = false).
Proof.
  apply (hits_do_not_refresh (Cache.set crypto_list three 1 cryptoCache)
           {| Cache.v := three; Cache.t := 300001 |}
           [mkRequest 10 10 11 (Responds []);
            mkRequest 300000 300001 300002 (Fails ErrHttpHeadersSent)]).
  - reflexivity.
  - repeat constructor; simpl; lia.
Defined.

(** X17: as long as the upstream API answers, the program is silent and
    every request gets its response: nothing is logged, no handler
    rejects, and there are as many responses as requests. *)
Theorem upstream_up_means_all_answered (rqs : list Request) (c : Cache.Cache) :
  Forall upstream_up rqs ->
  let tr := snd (serve rqs c) in
  (count is_log tr = 0 /\ count is_rejection tr = 0 /\ count is_send tr = length rqs)%nat.
Proof.
  intros Hall. cbv zeta. revert c.
  induction Hall as [|rq rqs [l0 Hup0] _ IH]; intros c.
  - repeat split.
  - first_request rq c; try congruence; count_events IH.
Qed.

Lemma upstream_up_means_all_answered_witness :
  let tr := snd (serve race_requests cryptoCache) in
  (count is_log tr = 0 /\ count is_rejection tr = 0
   /\ count is_send tr = length race_requests)%nat.
Proof.
  apply (upstream_up_means_all_answered race_requests cryptoCache).
  repeat constructor; exists three; reflexivity.
Defined.
